(** * CircleEnv: an RC car following a circle, in relative coordinates

    Shallow embedding of [aa_simulation/envs/circle_env.py].

    Numbers.  The program computes with numpy float64 values.  They are
    idealised here as the real numbers [R]: every arithmetic operation
    is the exact one, without rounding, overflow or signed zeros.  The
    two values of the program that are not real numbers are kept apart:
    [np.inf] is the extra point [Inf] of [scalar], and the [nan] that
    numpy produces for [0/0] (reached only by a vehicle at the origin)
    is not modelled: [Rdiv] is total and says nothing useful there, so
    every statement about a quotient carries [(x, y) <> (0, 0)].

    Effects.  [step] mutates [self._state] and [self._action] and can
    raise when the dynamics model hands back something that is not a
    6-vector; it is a function from the environment to the environment
    after the call together with either the returned [Step] or the
    exception.  [np.random.random()] reads a global generator; the
    generator is the stream of its future draws, passed explicitly. *)

From Stdlib Require Import Reals Lra Lia List ZArith Bool.
Import ListNotations.
Open Scope R_scope.

(** ** Exceptions *)

Inductive exn : Type :=
| ValueError   (* unpacking a sequence of the wrong length *)
| IndexError.  (* index out of bounds *)

Inductive result (A : Type) : Type :=
| Ok (a : A)
| Raise (e : exn).

Arguments Ok {A} a.
Arguments Raise {A} e.

Definition bind {A B : Type} (m : result A) (k : A -> result B) : result B :=
  match m with
  | Ok a => k a
  | Raise e => Raise e
  end.

Declare Scope result_scope.
Delimit Scope result_scope with result.
Notation "x <- m ;; k" := (bind m (fun x => k))
  (at level 100, m at next level, right associativity) : result_scope.

(** ** The numpy functions the environment calls *)

Module np.

(** A float64 scalar that may be [np.inf]. *)
Inductive scalar : Type :=
| Fin (r : R)
| Inf.

(** [np.square(x)]. *)
Definition square (x : R) : R := x * x.

(** [np.deg2rad(d)]. *)
Definition deg2rad (d : R) : R := d * (PI / 180).

(** [a % b] on floats: the remainder that goes with floor division,
    [a - floor(a / b) * b]; it has the sign of [b]. *)
Definition floor (a : R) : Z := Int_part a.
Definition mod_ (a b : R) : R := a - IZR (floor (a / b)) * b.

(** [np.arctan2(x1, x2)]: the angle of the point with abscissa [x2]
    and ordinate [x1], in (-pi, pi].  IEEE gives -pi instead of pi
    when [x1] is a negative zero and [x2 < 0]; the two differ by a
    full turn. *)
Definition arctan2 (x1 x2 : R) : R :=
  if Rlt_dec 0 x2 then atan (x1 / x2)
  else if Rlt_dec x2 0 then
    if Rle_dec 0 x1 then atan (x1 / x2) + PI else atan (x1 / x2) - PI
  else if Rlt_dec 0 x1 then PI / 2
  else if Rlt_dec x1 0 then - PI / 2
  else 0.

(** [np.zeros(n)]. *)
Definition zeros (n : nat) : list R := repeat 0 n.

(** [a[i] = v] on a one-dimensional array, with a nonnegative [i]. *)
Fixpoint setitem (a : list R) (i : nat) (v : R) : result (list R) :=
  match a, i with
  | [], _ => Raise IndexError
  | _ :: t, O => Ok (v :: t)
  | h :: t, S j =>
      match setitem t j v with
      | Ok t' => Ok (h :: t')
      | Raise e => Raise e
      end
  end.

(** The global generator behind [np.random.random()]: the stream of
    the draws still to come. *)
Definition RandomState : Type := nat -> R.

(** [np.random.random()]: the next draw, and the generator advanced. *)
Definition random (g : RandomState) : R * RandomState :=
  (g O, fun n => g (S n)).

(** Every draw lies in the half-open interval [0, 1). *)
Definition uniform01 (g : RandomState) : Prop :=
  forall n, 0 <= g n < 1.

End np.

(** ** The environment *)

(** [x, y, yaw, x_dot, y_dot, yaw_dot = state]. *)
Definition unpack6 (state : list R) : result (R * R * R * R * R * R) :=
  match state with
  | [x; y; yaw; x_dot; y_dot; yaw_dot] => Ok (x, y, yaw, x_dot, y_dot, yaw_dot)
  | _ => Raise ValueError
  end.

(** The result of [rllab.envs.base.Step], with the keyword arguments
    [dist] and [vel] of its info dictionary as fields. *)
Record Step : Type := mkStep {
  observation : list R;
  reward : np.scalar;
  done : bool;
  dist : np.scalar;
  vel : np.scalar
}.

(** [CircleEnv._normalize_angle]. *)
Definition _normalize_angle (angle : R) : R :=
  let angle := np.mod_ angle (2 * PI) in
  if Rgt_dec angle PI then angle - 2 * PI else angle.

Section CircleEnv.

(** The action is opaque to the environment. *)
Variable Action : Type.

(** Supplied by the base class [VehicleEnv], which is not part of
    this file: the dynamics model [self._model.state_transition] and
    the collision check [self._check_collision]. *)
Variable state_transition : list R -> Action -> R -> list R.
Variable _check_collision : list R -> bool.

(** The fields of the instance that [CircleEnv] reads or writes. *)
Record CircleEnv : Type := mkCircleEnv {
  radius : R;
  target_velocity : R;
  _dt : R;
  _state : list R;
  _action : option Action
}.

Definition set_action (self : CircleEnv) (a : option Action) : CircleEnv :=
  mkCircleEnv (radius self) (target_velocity self) (_dt self) (_state self) a.

Definition set_state (self : CircleEnv) (s : list R) : CircleEnv :=
  mkCircleEnv (radius self) (target_velocity self) (_dt self) s (_action self).

(** [CircleEnv._state_to_relative].  The power [** 0.5] of the
    nonnegative [x**2 + y**2] is the square root. *)
Definition _state_to_relative (self : CircleEnv) (state : list R)
  : result (list R) :=
  let r := radius self in
  (s <- unpack6 state ;;
   let '(x, y, yaw, x_dot, y_dot, yaw_dot) := s in
   let dx := sqrt (np.square x + np.square y) - r in
   let theta := _normalize_angle (np.arctan2 (- x) y + PI - yaw) in
   let ddx := x / sqrt (x ^ 2 + y ^ 2) * x_dot
              + y / sqrt (x ^ 2 + y ^ 2) * y_dot in
   let dtheta := x / (x ^ 2 + y ^ 2) * x_dot
                 - y / (x ^ 2 + y ^ 2) * y_dot - yaw_dot in
   Ok [dx; theta; ddx; dtheta])%result.

(** [CircleEnv.get_initial_state]. *)
Definition get_initial_state (self : CircleEnv) (g : np.RandomState)
  : result (list R) * np.RandomState :=
  let angle_margin := np.deg2rad 60 in
  let position_margin := 0.5 in
  let velocity_margin := 1.5 * target_velocity self in
  let yaw_dot_margin := 2 in
  let (u, g) := np.random g in
  let x := position_margin * u - position_margin / 2 in
  let x := x - radius self in
  let (u, g) := np.random g in
  let yaw := angle_margin * u - angle_margin / 2 in
  let yaw := yaw + np.deg2rad 270 in
  let (u, g) := np.random g in
  let x_dot := velocity_margin * u - velocity_margin / 2 in
  let (u, g) := np.random g in
  let y_dot := - velocity_margin * u in
  let (u, g) := np.random g in
  let yaw_dot := yaw_dot_margin * u - yaw_dot_margin / 2 in
  let state := np.zeros 6 in
  ((state <- np.setitem state 0 x ;;
    state <- np.setitem state 2 yaw ;;
    state <- np.setitem state 3 x_dot ;;
    state <- np.setitem state 4 y_dot ;;
    state <- np.setitem state 5 yaw_dot ;;
    Ok state)%result, g).

(** The last two statements of [step]: the observation is computed
    from the local [nextstate] and packed with the rest. *)
Definition step_return (self : CircleEnv) (nextstate : list R)
    (reward : np.scalar) (done : bool) (distance vel_diff : np.scalar)
  : CircleEnv * result Step :=
  match _state_to_relative self nextstate with
  | Ok next_observation =>
      (self, Ok (mkStep next_observation reward done distance vel_diff))
  | Raise e => (self, Raise e)
  end.

(** [CircleEnv.step]. *)
Definition step (self : CircleEnv) (action : Action)
  : CircleEnv * result Step :=
  let self := set_action self (Some action) in
  let nextstate := state_transition (_state self) action (_dt self) in
  let collision := _check_collision nextstate in
  if collision then
    let reward := np.Fin (-100) in
    let done := true in
    let distance := np.Inf in
    let vel_diff := np.Inf in
    step_return self nextstate reward done distance vel_diff
  else
    let self := set_state self nextstate in
    let done := false in
    let r := radius self in
    match unpack6 nextstate with
    | Raise e => (self, Raise e)
    | Ok (x, y, _, x_dot, y_dot, _) =>
        let lambda1 := 0.25 in
        let velocity := sqrt (np.square x_dot + np.square y_dot) in
        let vel_diff := velocity - target_velocity self in
        let distance := r - sqrt (np.square x + np.square y) in
        let reward := - Rabs distance in
        let reward := reward - lambda1 * np.square vel_diff in
        step_return self nextstate (np.Fin reward) done
          (np.Fin distance) (np.Fin vel_diff)
    end.

End CircleEnv.

Arguments radius {Action} c.
Arguments target_velocity {Action} c.
Arguments _dt {Action} c.
Arguments _state {Action} c.
Arguments _action {Action} c.
Arguments mkCircleEnv {Action} radius target_velocity _dt _state _action.
Arguments _state_to_relative {Action} self state.
Arguments step {Action} state_transition _check_collision self action.
Arguments get_initial_state {Action} self g.

(** ** Resetting the environment *)

Section Reset.

Variable Action : Type.

(** The optional renderer of the base class, [self._renderer], and its
    [reset()] method.  The handle is kept beside the record of the
    environment: [None] when no renderer is attached. *)
Variable Renderer : Type.
Variable renderer_reset : Renderer -> Renderer.

(** [CircleEnv.reset]: the environment, the generator and the renderer
    after the call, and the observation returned. *)
Definition reset (self : CircleEnv Action) (g : np.RandomState)
    (_renderer : option Renderer)
  : CircleEnv Action * np.RandomState * option Renderer * result (list R) :=
  let self := set_action Action self None in
  let (sampled, g) := get_initial_state self g in
  match sampled with
  | Raise e => (self, g, _renderer, Raise e)
  | Ok state =>
      let self := set_state Action self state in
      match _state_to_relative self (_state self) with
      | Raise e => (self, g, _renderer, Raise e)
      | Ok observation =>
          let _renderer :=
            match _renderer with
            | Some rd => Some (renderer_reset rd)
            | None => None
            end in
          (self, g, _renderer, Ok observation)
      end
  end.

End Reset.

Arguments reset {Action Renderer} renderer_reset self g _renderer.

(** ** Concrete environments used by the examples below *)

(** A renderer that counts how often it was reset. *)
Definition counting_renderer_reset : nat -> nat := S.

(** A dynamics model that moves the car one unit along x. *)
Definition shift_model : list R -> unit -> R -> list R :=
  fun s _ _ =>
    match s with
    | x :: rest => (x + 1) :: rest
    | [] => []
    end.

(** A dynamics model that ignores its arguments and always answers [s]. *)
Definition const_model (s : list R) : list R -> unit -> R -> list R :=
  fun _ _ _ => s.

(** A collision check that always answers [b]. *)
Definition const_collision (b : bool) : list R -> bool := fun _ => b.

(** A car at rest on the unit circle, at (1, 0). *)
Definition env_on_circle : CircleEnv unit :=
  mkCircleEnv 1 1 0.1 [1; 0; 0; 0; 0; 0] None.

(** The state the dynamics model proposes in the examples: (2, 0). *)
Definition state_outside : list R := [2; 0; 0; 0; 0; 0].

(** On the unit circle at (1, 0), heading up the tangent at unit speed. *)
Definition state_tangent : list R := [1; 0; PI / 2; 0; 1; 0].

(** An environment whose target velocity is negative / zero. *)
Definition env_backwards : CircleEnv unit :=
  mkCircleEnv 1 (-1) 0.1 [] None.

Definition env_standstill : CircleEnv unit :=
  mkCircleEnv 1 0 0.1 [] None.

(** The generator whose draws are all [u]. *)
Definition const_rng (u : R) : np.RandomState := fun _ => u.

(** * Properties *)

(** ** The float remainder *)

Lemma two_PI_pos : 0 < 2 * PI.
Proof. pose proof PI_RGT_0; lra. Qed.

Lemma mod_range (a b : R) : 0 < b -> 0 <= np.mod_ a b < b.
Proof.
  intros Hb. unfold np.mod_, np.floor.
  destruct (base_Int_part (a / b)) as [Hlo Hhi].
  assert (Ha : a = a / b * b) by (field; lra).
  rewrite Ha at 1 3.
  split; nra.
Qed.

Lemma mod_shift (a b : R) (k : Z) :
  0 < b -> k = Int_part (a / b) -> np.mod_ a b = a - IZR k * b.
Proof. intros _ ->. reflexivity. Qed.

Lemma mod_small (a b : R) : 0 <= a < b -> np.mod_ a b = a.
Proof.
  intros [Hlo Hhi].
  assert (Hb : 0 < b) by lra.
  rewrite (mod_shift a b 0 Hb); [ lra | ].
  apply Int_part_spec.
  assert (0 <= a / b < 1).
  { split.
    - apply Rmult_le_pos; [ lra | left; apply Rinv_0_lt_compat; lra ].
    - apply (Rmult_lt_reg_r b); [ lra | ].
      replace (a / b * b) with a by (field; lra). lra. }
  lra.
Qed.

Lemma mod_neg (a b : R) : - b <= a < 0 -> np.mod_ a b = a + b.
Proof.
  intros [Hlo Hhi].
  assert (Hb : 0 < b) by lra.
  rewrite (mod_shift a b (-1) Hb); [ lra | ].
  apply Int_part_spec.
  assert (-1 <= a / b < 0).
  { split.
    - apply (Rmult_le_reg_r b); [ lra | ].
      replace (a / b * b) with a by (field; lra). lra.
    - apply (Rmult_lt_reg_r b); [ lra | ].
      replace (a / b * b) with a by (field; lra). lra. }
  lra.
Qed.

Lemma mod_multiple (b : R) (k : Z) : 0 < b -> np.mod_ (IZR k * b) b = 0.
Proof.
  intros Hb.
  rewrite (mod_shift _ b k Hb); [ lra | ].
  apply Int_part_spec.
  replace (IZR k * b / b) with (IZR k) by (field; lra). lra.
Qed.

(** ** Angle normalisation *)

(** What the code guarantees: the half-open interval (-pi, pi], closed
    at pi and open at -pi. *)
Lemma _normalize_angle_range (angle : R) :
  - PI < _normalize_angle angle <= PI.
Proof.
  unfold _normalize_angle.
  pose proof (mod_range angle (2 * PI) two_PI_pos) as H.
  destruct (Rgt_dec (np.mod_ angle (2 * PI)) PI); lra.
Qed.

Lemma _normalize_angle_fixed (angle : R) :
  - PI < angle <= PI -> _normalize_angle angle = angle.
Proof.
  intros [Hlo Hhi]. unfold _normalize_angle.
  pose proof PI_RGT_0 as Hpi.
  destruct (Rle_dec 0 angle) as [Hpos | Hneg].
  - rewrite mod_small by lra.
    destruct (Rgt_dec angle PI); lra.
  - rewrite mod_neg by lra.
    destruct (Rgt_dec (angle + 2 * PI) PI); lra.
Qed.

Lemma _normalize_angle_full_turns (k : Z) :
  _normalize_angle (IZR k * (2 * PI)) = 0.
Proof.
  unfold _normalize_angle.
  rewrite mod_multiple by apply two_PI_pos.
  pose proof PI_RGT_0.
  destruct (Rgt_dec 0 PI); lra.
Qed.

(** C4 (the code departs from its docstring): [_normalize_angle] maps pi
    to pi, which is outside [-pi, pi); and the heading error of the
    state (0, 1) with yaw 0 is that same pi. *)
Theorem _normalize_angle_pi_stays :
  _normalize_angle PI = PI
  /\ ~ (- PI <= _normalize_angle PI < PI)
  /\ forall (Action : Type) (self : CircleEnv Action),
       exists dx ddx dtheta,
         _state_to_relative self [0; 1; 0; 0; 0; 0] = Ok [dx; PI; ddx; dtheta].
Proof.
  pose proof PI_RGT_0 as Hpi.
  assert (Hfix : _normalize_angle PI = PI)
    by (apply _normalize_angle_fixed; lra).
  split; [ exact Hfix | split ].
  - rewrite Hfix. lra.
  - intros Action self. do 3 eexists.
    unfold _state_to_relative. cbn [unpack6 bind].
    do 2 f_equal.
    unfold np.arctan2.
    destruct (Rlt_dec 0 1) as [_ | H]; [ | lra ].
    replace (- 0 / 1) with 0 by field. rewrite atan_0.
    replace (0 + PI - 0) with PI by ring.
    rewrite Hfix. reflexivity.
Qed.

(** C9: [_normalize_angle] is idempotent. *)
Theorem _normalize_angle_idempotent (angle : R) :
  _normalize_angle (_normalize_angle angle) = _normalize_angle angle.
Proof.
  apply _normalize_angle_fixed, _normalize_angle_range.
Qed.

(** ** The relative-coordinate transform *)

Lemma unpack6_length (state : list R) :
  length state = 6%nat ->
  exists x y yaw x_dot y_dot yaw_dot,
    state = [x; y; yaw; x_dot; y_dot; yaw_dot].
Proof.
  intros H.
  do 6 (destruct state as [ | ? state ]; [ discriminate H | ]).
  destruct state; [ | discriminate H ].
  do 6 eexists. reflexivity.
Qed.

(** On a 6-vector the transform returns; it reads nothing of the
    environment but its radius. *)
Lemma _state_to_relative_returns {Action : Type} (self : CircleEnv Action)
    (state : list R) :
  length state = 6%nat -> exists obs, _state_to_relative self state = Ok obs.
Proof.
  intros H.
  destruct (unpack6_length state H) as (x & y & yaw & xd & yd & yawd & ->).
  eexists. reflexivity.
Qed.

Lemma _state_to_relative_radius {Action : Type} (self other : CircleEnv Action)
    (state : list R) :
  radius self = radius other ->
  _state_to_relative self state = _state_to_relative other state.
Proof. intros H. unfold _state_to_relative. rewrite H. reflexivity. Qed.

Lemma norm_pos (x y : R) : (x, y) <> (0, 0) -> 0 < x² + y².
Proof.
  intros H.
  destruct (Req_dec_T x 0) as [-> | Hx].
  - destruct (Req_dec_T y 0) as [-> | Hy]; [ congruence | ].
    pose proof (Rsqr_pos_lt y Hy). unfold Rsqr in *. lra.
  - pose proof (Rsqr_pos_lt x Hx). pose proof (Rle_0_sqr y). lra.
Qed.

(** The transform in closed form, away from the origin. *)
Lemma _state_to_relative_closed_form {Action : Type} (self : CircleEnv Action)
    (x y yaw x_dot y_dot yaw_dot : R) :
  (x, y) <> (0, 0) ->
  _state_to_relative self [x; y; yaw; x_dot; y_dot; yaw_dot]
  = Ok [ sqrt (x² + y²) - radius self;
         _normalize_angle (np.arctan2 (- x) y + PI - yaw);
         (x * x_dot + y * y_dot) / sqrt (x² + y²);
         (x * x_dot - y * y_dot) / (x² + y²) - yaw_dot ].
Proof.
  intros Hxy.
  pose proof (norm_pos x y Hxy) as Hpos.
  assert (Hsq : sqrt (x² + y²) <> 0).
  { pose proof (sqrt_lt_R0 _ Hpos). lra. }
  unfold _state_to_relative. cbn [unpack6 bind]. unfold np.square.
  replace (x ^ 2 + y ^ 2) with (x² + y²) by (unfold Rsqr; ring).
  fold (Rsqr x). fold (Rsqr y).
  replace (x / sqrt (x² + y²) * x_dot + y / sqrt (x² + y²) * y_dot)
    with ((x * x_dot + y * y_dot) / sqrt (x² + y²)) by (field; exact Hsq).
  replace (x / (x² + y²) * x_dot - y / (x² + y²) * y_dot - yaw_dot)
    with ((x * x_dot - y * y_dot) / (x² + y²) - yaw_dot) by (field; lra).
  reflexivity.
Qed.

(** C5: away from the origin, [_state_to_relative] returns the 4-vector
    [dx, theta, ddx, dtheta] with dx = sqrt(x² + y²) - radius,
    theta = normalize(atan2(-x, y) + pi - yaw),
    ddx = (x x_dot + y y_dot) / sqrt(x² + y²) and
    dtheta = (x x_dot - y y_dot) / (x² + y²) - yaw_dot. *)
Theorem _state_to_relative_formulas {Action : Type} (self : CircleEnv Action)
    (x y yaw x_dot y_dot yaw_dot : R) :
  (x, y) <> (0, 0) ->
  _state_to_relative self [x; y; yaw; x_dot; y_dot; yaw_dot]
  = Ok [ sqrt (x² + y²) - radius self;
         _normalize_angle (np.arctan2 (- x) y + PI - yaw);
         (x * x_dot + y * y_dot) / sqrt (x² + y²);
         (x * x_dot - y * y_dot) / (x² + y²) - yaw_dot ].
Proof. apply _state_to_relative_closed_form. Qed.

Lemma _state_to_relative_formulas_witness :
  (1, 0) <> (0, 0)
  /\ _state_to_relative env_on_circle [1; 0; 0; 0; 0; 0]
     = Ok [ sqrt (1² + 0²) - radius env_on_circle;
            _normalize_angle (np.arctan2 (- 1) 0 + PI - 0);
            (1 * 0 + 0 * 0) / sqrt (1² + 0²);
            (1 * 0 - 0 * 0) / (1² + 0²) - 0 ].
Proof.
  assert (H : (1, 0) <> (0, 0)) by (intros E; injection E; lra).
  split; [ exact H | ].
  apply (_state_to_relative_formulas env_on_circle 1 0 0 0 0 0 H).
Defined.

(** ** One step of the simulation *)

Section StepProperties.

Variable Action : Type.
Variable state_transition : list R -> Action -> R -> list R.
Variable _check_collision : list R -> bool.

(** C1: when the collision check on the dynamics model's [nextstate]
    reports a collision, [step] returns reward -100, done = True and
    the diagnostics dist = vel = +infinity; when it reports none,
    [step] returns done = False.  So done is true exactly when a
    collision was detected. *)
Theorem step_done_iff_collision (self : CircleEnv Action) (action : Action) :
  let nextstate := state_transition (_state self) action (_dt self) in
  length nextstate = 6%nat ->
  exists res,
    snd (step state_transition _check_collision self action) = Ok res
    /\ done res = _check_collision nextstate
    /\ (_check_collision nextstate = true ->
        reward res = np.Fin (-100) /\ done res = true
        /\ dist res = np.Inf /\ vel res = np.Inf)
    /\ (_check_collision nextstate = false -> done res = false).
Proof.
  intros nextstate Hlen.
  destruct (unpack6_length nextstate Hlen)
    as (x & y & yaw & xd & yd & yawd & Hnext).
  unfold step. cbn [set_action _state _dt].
  fold nextstate. rewrite Hnext.
  destruct (_check_collision _) eqn:Hc.
  - eexists. split; [ reflexivity | ].
    cbn. repeat split; congruence.
  - eexists. split; [ reflexivity | ].
    cbn. repeat split; congruence.
Qed.

(** What a step without collision returns, field by field. *)
Lemma step_without_collision (self : CircleEnv Action) (action : Action)
    (x y yaw x_dot y_dot yaw_dot : R) :
  state_transition (_state self) action (_dt self)
  = [x; y; yaw; x_dot; y_dot; yaw_dot] ->
  _check_collision [x; y; yaw; x_dot; y_dot; yaw_dot] = false ->
  exists obs,
    step state_transition _check_collision self action
    = (set_state Action (set_action Action self (Some action))
         [x; y; yaw; x_dot; y_dot; yaw_dot],
       Ok (mkStep obs
             (np.Fin (- Rabs (radius self - sqrt (x² + y²))
                      - 0.25 * (sqrt (x_dot² + y_dot²)
                                - target_velocity self)²))
             false
             (np.Fin (radius self - sqrt (x² + y²)))
             (np.Fin (sqrt (x_dot² + y_dot²) - target_velocity self)))).
Proof.
  intros Hnext Hc.
  unfold step. cbn [set_action _state _dt].
  rewrite Hnext, Hc.
  eexists. reflexivity.
Qed.

(** C2: when no collision is detected and the committed state is
    [x, y, yaw, x_dot, y_dot, yaw_dot], the reward is
    -|radius - sqrt(x² + y²)| - 0.25 (sqrt(x_dot² + y_dot²) - target_velocity)²
    and the diagnostics are dist = radius - sqrt(x² + y²) and
    vel = sqrt(x_dot² + y_dot²) - target_velocity. *)
Theorem step_reward_no_collision (self : CircleEnv Action) (action : Action)
    (x y yaw x_dot y_dot yaw_dot : R) :
  let nextstate := state_transition (_state self) action (_dt self) in
  nextstate = [x; y; yaw; x_dot; y_dot; yaw_dot] ->
  _check_collision nextstate = false ->
  exists res,
    snd (step state_transition _check_collision self action) = Ok res
    /\ _state (fst (step state_transition _check_collision self action))
       = [x; y; yaw; x_dot; y_dot; yaw_dot]
    /\ reward res
       = np.Fin (- Rabs (radius self - sqrt (x² + y²))
                 - 0.25 * (sqrt (x_dot² + y_dot²) - target_velocity self)²)
    /\ dist res = np.Fin (radius self - sqrt (x² + y²))
    /\ vel res = np.Fin (sqrt (x_dot² + y_dot²) - target_velocity self).
Proof.
  intros nextstate Hnext Hc. rewrite Hnext in Hc.
  destruct (step_without_collision self action _ _ _ _ _ _ Hnext Hc)
    as [obs ->].
  eexists. split; [ reflexivity | ].
  cbn. repeat split; reflexivity.
Qed.

(** C3: a step that detects a collision leaves the state field as it
    was before the call; a step that detects none stores [nextstate]
    in it.  This holds whether the call returns or raises. *)
Theorem step_state_effect (self : CircleEnv Action) (action : Action) :
  let nextstate := state_transition (_state self) action (_dt self) in
  _state (fst (step state_transition _check_collision self action))
  = if _check_collision nextstate then _state self else nextstate.
Proof.
  intros nextstate.
  unfold step, step_return. cbn [set_action _state _dt].
  fold nextstate.
  destruct (_check_collision nextstate).
  - destruct (_state_to_relative _ nextstate); reflexivity.
  - destruct (unpack6 nextstate) as [ [[[[[x y] yaw] xd] yd] yawd] | e ];
      [ | reflexivity ].
    destruct (_state_to_relative _ nextstate); reflexivity.
Qed.

(** C6 (amended): the observation returned by [step] is the
    relative-coordinate transform of [nextstate], the state proposed
    by the dynamics model, whether or not a collision was detected:
    of the committed state when there is no collision, of the
    rejected state when there is one. *)
Theorem step_observation_of_nextstate (self : CircleEnv Action)
    (action : Action) :
  let nextstate := state_transition (_state self) action (_dt self) in
  let out := step state_transition _check_collision self action in
  length nextstate = 6%nat ->
  exists res,
    snd out = Ok res
    /\ _state_to_relative (fst out) nextstate = Ok (observation res)
    /\ (_check_collision nextstate = false ->
        _state_to_relative (fst out) (_state (fst out))
        = Ok (observation res)).
Proof.
  intros nextstate out Hlen. subst out.
  destruct (unpack6_length nextstate Hlen)
    as (x & y & yaw & xd & yd & yawd & Hnext).
  unfold step. cbn [set_action _state _dt].
  fold nextstate. rewrite Hnext.
  destruct (_check_collision _) eqn:Hc.
  - eexists. split; [ reflexivity | ].
    split; [ reflexivity | discriminate ].
  - eexists. split; [ reflexivity | ].
    split; reflexivity.
Qed.

End StepProperties.

Lemma step_done_iff_collision_witness :
  length (const_model state_outside (_state env_on_circle) tt
            (_dt env_on_circle)) = 6%nat
  /\ exists res,
       snd (step (const_model state_outside) (const_collision true)
              env_on_circle tt) = Ok res
       /\ reward res = np.Fin (-100) /\ done res = true
       /\ dist res = np.Inf /\ vel res = np.Inf.
Proof.
  assert (Hlen : length (const_model state_outside (_state env_on_circle) tt
                           (_dt env_on_circle)) = 6%nat) by reflexivity.
  split; [ exact Hlen | ].
  destruct (step_done_iff_collision unit (const_model state_outside)
              (const_collision true) env_on_circle tt Hlen)
    as (res & Hres & _ & Hcol & _).
  exists res. split; [ exact Hres | ].
  apply Hcol. reflexivity.
Defined.

Lemma step_reward_no_collision_witness :
  const_model state_outside (_state env_on_circle) tt (_dt env_on_circle)
  = [2; 0; 0; 0; 0; 0]
  /\ const_collision false
       (const_model state_outside (_state env_on_circle) tt
          (_dt env_on_circle)) = false
  /\ exists res,
       snd (step (const_model state_outside) (const_collision false)
              env_on_circle tt) = Ok res
       /\ reward res
          = np.Fin (- Rabs (1 - sqrt (2² + 0²)) - 0.25 * (sqrt (0² + 0²) - 1)²)
       /\ dist res = np.Fin (1 - sqrt (2² + 0²))
       /\ vel res = np.Fin (sqrt (0² + 0²) - 1).
Proof.
  split; [ reflexivity | split; [ reflexivity | ] ].
  destruct (step_reward_no_collision unit (const_model state_outside)
              (const_collision false) env_on_circle tt 2 0 0 0 0 0
              eq_refl eq_refl)
    as (res & Hres & _ & Hrew & Hdist & Hvel).
  exists res. repeat split; assumption.
Defined.

Lemma step_observation_of_nextstate_witness :
  length (const_model state_outside (_state env_on_circle) tt
            (_dt env_on_circle)) = 6%nat
  /\ exists res,
       snd (step (const_model state_outside) (const_collision true)
              env_on_circle tt) = Ok res
       /\ _state_to_relative
            (fst (step (const_model state_outside) (const_collision true)
                    env_on_circle tt)) state_outside
          = Ok (observation res).
Proof.
  assert (Hlen : length (const_model state_outside (_state env_on_circle) tt
                           (_dt env_on_circle)) = 6%nat) by reflexivity.
  split; [ exact Hlen | ].
  destruct (step_observation_of_nextstate unit (const_model state_outside)
              (const_collision true) env_on_circle tt Hlen)
    as (res & Hres & Hobs & _).
  exists res. split; [ exact Hres | exact Hobs ].
Defined.

Lemma sqrt_4 : sqrt (2 * 2 + 0 * 0) = 2.
Proof.
  replace (2 * 2 + 0 * 0) with (2 * 2) by ring.
  apply sqrt_square. lra.
Qed.

Lemma sqrt_1_0 : sqrt (1 * 1 + 0 * 0) = 1.
Proof.
  replace (1 * 1 + 0 * 0) with (1 * 1) by ring.
  apply sqrt_square. lra.
Qed.

(** C6 as stated fails: the car rests at (1, 0) on the unit circle, the
    dynamics model proposes (2, 0) and the collision check rejects it.
    The state (1, 0) is retained, whose radial error is 0, but the
    observation returned has radial error 1: it is the transform of the
    rejected state. *)
Lemma step_observation_collision_counterexample :
  let out := step (const_model state_outside) (const_collision true)
               env_on_circle tt in
  _state (fst out) = [1; 0; 0; 0; 0; 0]
  /\ exists res,
       snd out = Ok res
       /\ done res = true
       /\ nth 0 (observation res) 0 = 1
       /\ (forall obs,
             _state_to_relative (fst out) (_state (fst out)) = Ok obs ->
             nth 0 obs 0 = 0)
       /\ _state_to_relative (fst out) (_state (fst out))
          <> Ok (observation res).
Proof.
  cbv zeta.
  unfold step, step_return, const_model, const_collision, state_outside,
    _state_to_relative, set_action, env_on_circle.
  cbn [_state _dt radius unpack6 bind fst snd].
  unfold np.square.
  split; [ reflexivity | ].
  eexists. split; [ reflexivity | ].
  cbn [observation done nth].
  rewrite sqrt_4.
  split; [ reflexivity | split; [ lra | split ] ].
  - intros obs H. injection H as <-. cbn [nth]. rewrite sqrt_1_0. lra.
  - intros H. injection H as H _. rewrite sqrt_1_0 in H. lra.
Qed.

(** ** The initial state *)

(** The sampler never raises: it returns the array below, having
    consumed five draws, in the order x, yaw, x_dot, y_dot, yaw_dot.
    Index 1, the y position, keeps the 0 of [np.zeros]. *)
Lemma get_initial_state_eq {Action : Type} (self : CircleEnv Action)
    (g : np.RandomState) :
  get_initial_state self g
  = (Ok [ 0.5 * g 0%nat - 0.5 / 2 - radius self;
          0;
          np.deg2rad 60 * g 1%nat - np.deg2rad 60 / 2 + np.deg2rad 270;
          1.5 * target_velocity self * g 2%nat
            - 1.5 * target_velocity self / 2;
          - (1.5 * target_velocity self) * g 3%nat;
          2 * g 4%nat - 2 / 2 ],
     fun n => g (5 + n)%nat).
Proof. reflexivity. Qed.

(** C7 (amended): for draws in [0, 1) the sampled 6-vector has
    x in [-radius - 0.25, -radius + 0.25], yaw between 270 - 30 and
    270 + 30 degrees (in radians), |x_dot| <= 0.75 |target_velocity|,
    |y_dot| <= 1.5 |target_velocity| and yaw_dot in [-1, 1].  The two
    velocity bounds are those of the claim when target_velocity >= 0. *)
Theorem get_initial_state_margins {Action : Type} (self : CircleEnv Action)
    (g : np.RandomState) :
  np.uniform01 g ->
  exists x y yaw x_dot y_dot yaw_dot,
    fst (get_initial_state self g) = Ok [x; y; yaw; x_dot; y_dot; yaw_dot]
    /\ - radius self - 0.25 <= x <= - radius self + 0.25
    /\ np.deg2rad (270 - 30) <= yaw <= np.deg2rad (270 + 30)
    /\ Rabs x_dot <= 0.75 * Rabs (target_velocity self)
    /\ Rabs y_dot <= 1.5 * Rabs (target_velocity self)
    /\ -1 <= yaw_dot <= 1
    /\ (0 <= target_velocity self ->
        Rabs x_dot <= 0.75 * target_velocity self
        /\ Rabs y_dot <= 1.5 * target_velocity self).
Proof.
  intros Hg.
  pose proof (Hg 0%nat) as H0. pose proof (Hg 1%nat) as H1.
  pose proof (Hg 2%nat) as H2. pose proof (Hg 3%nat) as H3.
  pose proof (Hg 4%nat) as H4.
  rewrite get_initial_state_eq. cbn [fst].
  do 6 eexists. split; [ reflexivity | ].
  pose proof PI_RGT_0 as Hpi.
  set (tv := target_velocity self).
  assert (Hx : Rabs (1.5 * tv * g 2%nat - 1.5 * tv / 2) <= 0.75 * Rabs tv).
  { unfold Rabs at 2. destruct (Rcase_abs tv); apply Rabs_le; nra. }
  assert (Hy : Rabs (- (1.5 * tv) * g 3%nat) <= 1.5 * Rabs tv).
  { unfold Rabs at 2. destruct (Rcase_abs tv); apply Rabs_le; nra. }
  unfold np.deg2rad.
  repeat split; try lra; try nra.
  - rewrite <- (Rabs_pos_eq tv) at 3 by assumption. exact Hx.
  - rewrite <- (Rabs_pos_eq tv) at 2 by assumption. exact Hy.
Qed.

Lemma const_rng_uniform01 (u : R) : 0 <= u < 1 -> np.uniform01 (const_rng u).
Proof. intros H n. exact H. Qed.

Lemma get_initial_state_margins_witness :
  np.uniform01 (const_rng 0.5)
  /\ exists x y yaw x_dot y_dot yaw_dot,
       fst (get_initial_state env_on_circle (const_rng 0.5))
       = Ok [x; y; yaw; x_dot; y_dot; yaw_dot]
       /\ - 1 - 0.25 <= x <= - 1 + 0.25
       /\ np.deg2rad (270 - 30) <= yaw <= np.deg2rad (270 + 30)
       /\ Rabs x_dot <= 0.75 * Rabs 1
       /\ Rabs y_dot <= 1.5 * Rabs 1
       /\ -1 <= yaw_dot <= 1.
Proof.
  assert (Hg : np.uniform01 (const_rng 0.5))
    by (apply const_rng_uniform01; lra).
  split; [ exact Hg | ].
  destruct (get_initial_state_margins env_on_circle (const_rng 0.5) Hg)
    as (x & y & yaw & xd & yd & yawd & Heq & Hx & Hyaw & Hxd & Hyd & Hyawd & _).
  exists x, y, yaw, xd, yd, yawd.
  repeat split; solve [ assumption | apply Hx | apply Hyaw | apply Hyawd ].
Defined.

(** C7 as stated fails for a negative target velocity: with
    target_velocity = -1 and every draw 0, x_dot = 0.75, and
    |0.75| <= 0.75 * (-1) is false. *)
Lemma get_initial_state_negative_target_counterexample :
  np.uniform01 (const_rng 0)
  /\ exists x y yaw x_dot y_dot yaw_dot,
       fst (get_initial_state env_backwards (const_rng 0))
       = Ok [x; y; yaw; x_dot; y_dot; yaw_dot]
       /\ x_dot = 0.75
       /\ ~ (Rabs x_dot <= 0.75 * target_velocity env_backwards).
Proof.
  split; [ apply const_rng_uniform01; lra | ].
  rewrite get_initial_state_eq. cbn [fst].
  do 6 eexists. split; [ reflexivity | ].
  unfold const_rng, env_backwards. cbn [target_velocity].
  split; [ lra | ].
  intros H. pose proof (Rabs_pos (1.5 * -1 * 0 - 1.5 * -1 / 2)). lra.
Qed.

(** C10 (amended): the y position of the sampled state is exactly 0, and
    y_dot is minus 1.5 target_velocity times the fourth draw: it lies
    in (-1.5 target_velocity, 0] when target_velocity > 0, is 0 when
    target_velocity = 0, and lies in [0, -1.5 target_velocity) when
    target_velocity < 0. *)
Theorem get_initial_state_on_axis {Action : Type} (self : CircleEnv Action)
    (g : np.RandomState) :
  np.uniform01 g ->
  exists x y yaw x_dot y_dot yaw_dot,
    fst (get_initial_state self g) = Ok [x; y; yaw; x_dot; y_dot; yaw_dot]
    /\ y = 0
    /\ y_dot = - (1.5 * target_velocity self) * g 3%nat
    /\ (0 < target_velocity self ->
        - 1.5 * target_velocity self < y_dot <= 0)
    /\ (target_velocity self = 0 -> y_dot = 0)
    /\ (target_velocity self < 0 ->
        0 <= y_dot < - 1.5 * target_velocity self).
Proof.
  intros Hg. pose proof (Hg 3%nat) as H3.
  rewrite get_initial_state_eq. cbn [fst].
  do 6 eexists. split; [ reflexivity | ].
  repeat split; try reflexivity; intros; nra.
Qed.

Lemma get_initial_state_on_axis_witness :
  np.uniform01 (const_rng 0.5)
  /\ exists x y yaw x_dot y_dot yaw_dot,
       fst (get_initial_state env_on_circle (const_rng 0.5))
       = Ok [x; y; yaw; x_dot; y_dot; yaw_dot]
       /\ y = 0
       /\ - 1.5 * 1 < y_dot <= 0.
Proof.
  assert (Hg : np.uniform01 (const_rng 0.5))
    by (apply const_rng_uniform01; lra).
  split; [ exact Hg | ].
  destruct (get_initial_state_on_axis env_on_circle (const_rng 0.5) Hg)
    as (x & y & yaw & xd & yd & yawd & Heq & Hy & _ & Hpos & _).
  exists x, y, yaw, xd, yd, yawd.
  split; [ exact Heq | split; [ exact Hy | ] ].
  apply Hpos. cbn [target_velocity env_on_circle]. lra.
Defined.

(** C10 as stated fails outside target_velocity > 0.  With
    target_velocity = 0 the sampled y_dot is 0, which is not in the
    empty interval (0, 0]; with target_velocity = -1 and every draw
    0.5 it is 0.75, which is positive. *)
Lemma get_initial_state_lateral_counterexample :
  np.uniform01 (const_rng 0.5)
  /\ (exists x y yaw x_dot y_dot yaw_dot,
        fst (get_initial_state env_standstill (const_rng 0.5))
        = Ok [x; y; yaw; x_dot; y_dot; yaw_dot]
        /\ y_dot = 0
        /\ ~ (- 1.5 * target_velocity env_standstill < y_dot <= 0))
  /\ (exists x y yaw x_dot y_dot yaw_dot,
        fst (get_initial_state env_backwards (const_rng 0.5))
        = Ok [x; y; yaw; x_dot; y_dot; yaw_dot]
        /\ y_dot = 0.75
        /\ ~ (y_dot <= 0)).
Proof.
  split; [ apply const_rng_uniform01; lra | split ].
  - rewrite get_initial_state_eq. cbn [fst].
    do 6 eexists. split; [ reflexivity | ].
    unfold const_rng, env_standstill. cbn [target_velocity].
    split; lra.
  - rewrite get_initial_state_eq. cbn [fst].
    do 6 eexists. split; [ reflexivity | ].
    unfold const_rng, env_backwards. cbn [target_velocity].
    split; lra.
Qed.

(** ** A car that follows the circle exactly *)

Lemma sqrt_norm_scale (a b : R) :
  b <> 0 -> sqrt (a² + b²) = sqrt (1 + (a / b)²) * Rabs b.
Proof.
  intros Hb.
  rewrite <- sqrt_Rsqr_abs.
  rewrite <- sqrt_mult.
  - f_equal. unfold Rsqr. field. exact Hb.
  - pose proof (Rle_0_sqr (a / b)). lra.
  - apply Rle_0_sqr.
Qed.

(** [np.arctan2 a b] is the angle of the direction (b, a). *)
Lemma arctan2_direction (a b : R) :
  (a, b) <> (0, 0) ->
  cos (np.arctan2 a b) = b / sqrt (a² + b²)
  /\ sin (np.arctan2 a b) = a / sqrt (a² + b²).
Proof.
  intros Hab.
  assert (Hn : 0 < sqrt (a² + b²)).
  { apply sqrt_lt_R0, norm_pos. exact Hab. }
  unfold np.arctan2.
  destruct (Rlt_dec 0 b) as [Hb | Hb].
  - (* right half plane *)
    assert (Hs : 0 < sqrt (1 + (a / b)²)).
    { apply sqrt_lt_R0. pose proof (Rle_0_sqr (a / b)). lra. }
    rewrite cos_atan, sin_atan.
    rewrite (sqrt_norm_scale a b) by lra.
    rewrite Rabs_pos_eq by lra.
    split; field; lra.
  - destruct (Rlt_dec b 0) as [Hb' | Hb'].
    + (* left half plane *)
      assert (Hs : 0 < sqrt (1 + (a / b)²)).
      { apply sqrt_lt_R0. pose proof (Rle_0_sqr (a / b)). lra. }
      assert (Hc : cos (atan (a / b)) = - b / sqrt (a² + b²)).
      { rewrite cos_atan, (sqrt_norm_scale a b) by lra.
        rewrite Rabs_left by lra. field. lra. }
      assert (Hsn : sin (atan (a / b)) = - a / sqrt (a² + b²)).
      { rewrite sin_atan, (sqrt_norm_scale a b) by lra.
        rewrite Rabs_left by lra. field. lra. }
      destruct (Rle_dec 0 a).
      * rewrite neg_cos, neg_sin, Hc, Hsn. split; field; lra.
      * rewrite cos_minus, sin_minus, cos_PI, sin_PI, Hc, Hsn.
        split; field; lra.
    + (* on the vertical axis *)
      assert (b = 0) by lra. subst b.
      replace (a² + 0²) with (a²) in * by (unfold Rsqr; ring).
      destruct (Rlt_dec 0 a) as [Ha | Ha].
      * rewrite cos_PI2, sin_PI2, sqrt_Rsqr by lra. split; field; lra.
      * destruct (Rlt_dec a 0) as [Ha' | Ha'].
        -- replace (- PI / 2) with (- (PI / 2)) by field.
           rewrite cos_neg, sin_neg, cos_PI2, sin_PI2.
           rewrite sqrt_Rsqr_abs, Rabs_left by lra. split; field; lra.
        -- exfalso. apply Hab. f_equal. lra.
Qed.

(** Whole turns do not change a direction. *)
Lemma direction_full_turns (x : R) (k : Z) :
  cos (x + IZR k * (2 * PI)) = cos x /\ sin (x + IZR k * (2 * PI)) = sin x.
Proof.
  destruct (Z_le_gt_dec 0 k) as [Hk | Hk].
  - replace (x + IZR k * (2 * PI)) with (x + 2 * INR (Z.to_nat k) * PI).
    + split; [ apply cos_period | apply sin_period ].
    + rewrite INR_IZR_INZ, Z2Nat.id by exact Hk. ring.
  - set (y := x + IZR k * (2 * PI)).
    replace x with (y + 2 * INR (Z.to_nat (- k)) * PI).
    + split; symmetry; [ apply cos_period | apply sin_period ].
    + unfold y. rewrite INR_IZR_INZ, Z2Nat.id by lia.
      rewrite opp_IZR. ring.
Qed.

(** Normalising moves an angle by whole turns. *)
Lemma _normalize_angle_shift (angle : R) :
  exists k : Z, _normalize_angle angle = angle + IZR k * (2 * PI).
Proof.
  unfold _normalize_angle, np.mod_.
  set (q := np.floor (angle / (2 * PI))).
  destruct (Rgt_dec _ PI).
  - exists (- q - 1)%Z. rewrite minus_IZR, opp_IZR. ring.
  - exists (- q)%Z. rewrite opp_IZR. ring.
Qed.

Section OnTheCircle.

Variable Action : Type.
Variable state_transition : list R -> Action -> R -> list R.
Variable _check_collision : list R -> bool.

(** C8: take a state on the target circle of radius r > 0
    (sqrt(x² + y²) = r) whose heading is the tangent direction
    (yaw = atan2(-x, y) + pi up to normalisation) and whose velocity is
    target_velocity along that heading.  Then [_state_to_relative]
    gives dx = 0, theta = 0 and ddx = 0, and a step that commits this
    state is rewarded 0. *)
Theorem on_circle_at_target_velocity (self : CircleEnv Action)
    (action : Action) (x y yaw x_dot y_dot yaw_dot : R) :
  0 < radius self ->
  sqrt (x² + y²) = radius self ->
  _normalize_angle yaw = _normalize_angle (np.arctan2 (- x) y + PI) ->
  0 <= target_velocity self ->
  x_dot = target_velocity self * cos yaw ->
  y_dot = target_velocity self * sin yaw ->
  (exists dtheta,
     _state_to_relative self [x; y; yaw; x_dot; y_dot; yaw_dot]
     = Ok [0; 0; 0; dtheta])
  /\ (state_transition (_state self) action (_dt self)
      = [x; y; yaw; x_dot; y_dot; yaw_dot] ->
      _check_collision [x; y; yaw; x_dot; y_dot; yaw_dot] = false ->
      exists res,
        snd (step state_transition _check_collision self action) = Ok res
        /\ reward res = np.Fin 0).
Proof.
  intros Hr Hon Hyaw Htv Hxd Hyd.
  set (r := radius self) in *. set (tv := target_velocity self) in *.
  assert (Hxy : (x, y) <> (0, 0)).
  { intros E. injection E as -> ->.
    replace (0² + 0²) with 0 in Hon by (unfold Rsqr; ring).
    rewrite sqrt_0 in Hon. lra. }
  (* the heading is the tangent direction *)
  destruct (arctan2_direction (- x) y) as [Hc Hs].
  { intros E. injection E as E1 E2. apply Hxy. f_equal; lra. }
  rewrite <- Rsqr_neg, Hon in Hc, Hs.
  destruct (_normalize_angle_shift yaw) as [k1 Hk1].
  destruct (_normalize_angle_shift (np.arctan2 (- x) y + PI)) as [k2 Hk2].
  assert (Hturn : yaw = np.arctan2 (- x) y + PI + IZR (k2 - k1) * (2 * PI)).
  { rewrite minus_IZR. lra. }
  destruct (direction_full_turns (np.arctan2 (- x) y + PI) (k2 - k1))
    as [Hcos Hsin].
  rewrite <- Hturn, neg_cos, Hc in Hcos.
  rewrite <- Hturn, neg_sin, Hs in Hsin.
  (* the speed is the target velocity *)
  assert (Hspeed : sqrt (x_dot² + y_dot²) = tv).
  { replace (x_dot² + y_dot²) with (tv²).
    - apply sqrt_Rsqr. exact Htv.
    - rewrite Hxd, Hyd. unfold Rsqr.
      pose proof (sin2_cos2 yaw) as Hsc. unfold Rsqr in Hsc. nra. }
  split.
  - eexists. rewrite _state_to_relative_closed_form by exact Hxy.
    fold r. rewrite Hon.
    replace (np.arctan2 (- x) y + PI - yaw) with (IZR (k1 - k2) * (2 * PI))
      by (rewrite Hturn, !minus_IZR; ring).
    rewrite _normalize_angle_full_turns.
    replace (r - r) with 0 by ring.
    replace ((x * x_dot + y * y_dot) / r) with 0.
    + reflexivity.
    + rewrite Hxd, Hyd, Hcos, Hsin. field. lra.
  - intros Hnext Hcol.
    destruct (step_without_collision Action state_transition
                _check_collision self action _ _ _ _ _ _ Hnext Hcol)
      as [obs ->].
    eexists. split; [ reflexivity | ].
    cbn [reward]. fold r tv. rewrite Hon, Hspeed.
    f_equal. replace (r - r) with 0 by ring. rewrite Rabs_R0.
    unfold Rsqr. ring.
Qed.

End OnTheCircle.

Lemma on_circle_at_target_velocity_witness :
  0 < radius env_on_circle
  /\ sqrt (1² + 0²) = radius env_on_circle
  /\ _normalize_angle (PI / 2) = _normalize_angle (np.arctan2 (- 1) 0 + PI)
  /\ 0 <= target_velocity env_on_circle
  /\ 0 = target_velocity env_on_circle * cos (PI / 2)
  /\ 1 = target_velocity env_on_circle * sin (PI / 2)
  /\ (exists dtheta,
        _state_to_relative env_on_circle state_tangent = Ok [0; 0; 0; dtheta])
  /\ exists res,
       snd (step (const_model state_tangent) (const_collision false)
              env_on_circle tt) = Ok res
       /\ reward res = np.Fin 0.
Proof.
  assert (H1 : 0 < radius env_on_circle) by (cbn; lra).
  assert (H2 : sqrt (1² + 0²) = radius env_on_circle).
  { cbn [radius env_on_circle]. unfold Rsqr. apply sqrt_1_0. }
  assert (H3 : _normalize_angle (PI / 2)
               = _normalize_angle (np.arctan2 (- 1) 0 + PI)).
  { f_equal. unfold np.arctan2.
    destruct (Rlt_dec 0 0) as [H | _]; [ lra | ].
    destruct (Rlt_dec 0 (- 1)) as [H | _]; [ lra | ].
    destruct (Rlt_dec (- 1) 0) as [_ | H]; [ field | lra ]. }
  assert (H4 : 0 <= target_velocity env_on_circle) by (cbn; lra).
  assert (H5 : 0 = target_velocity env_on_circle * cos (PI / 2)).
  { rewrite cos_PI2. ring. }
  assert (H6 : 1 = target_velocity env_on_circle * sin (PI / 2)).
  { rewrite sin_PI2. cbn. ring. }
  destruct (on_circle_at_target_velocity unit (const_model state_tangent)
              (const_collision false) env_on_circle tt
              1 0 (PI / 2) 0 1 0 H1 H2 H3 H4 H5 H6)
    as [Hrel Hstep].
  repeat (split; [ assumption | ]).
  apply Hstep; reflexivity.
Defined.

(** * Further properties of the code *)

(** ** More on angle normalisation *)

Lemma mod_periodic (a b : R) (k : Z) :
  0 < b -> np.mod_ (a + IZR k * b) b = np.mod_ a b.
Proof.
  intros Hb. unfold np.mod_, np.floor.
  assert (Hq : Int_part ((a + IZR k * b) / b) = (Int_part (a / b) + k)%Z).
  { symmetry. apply Int_part_spec.
    replace ((a + IZR k * b) / b) with (a / b + IZR k) by (field; lra).
    rewrite plus_IZR.
    destruct (base_Int_part (a / b)) as [Hlo Hhi]. lra. }
  rewrite Hq, plus_IZR. ring.
Qed.

(** X1: whatever the angle, [_normalize_angle] answers in the interval
    (-pi, pi], open at -pi and closed at pi. *)
Theorem _normalize_angle_in_range (angle : R) :
  - PI < _normalize_angle angle <= PI.
Proof. apply _normalize_angle_range. Qed.

(** X2: [_normalize_angle] returns its argument unchanged exactly when
    the argument already lies in (-pi, pi]. *)
Theorem _normalize_angle_unchanged_iff (angle : R) :
  _normalize_angle angle = angle <-> - PI < angle <= PI.
Proof.
  split.
  - intros H. rewrite <- H. apply _normalize_angle_range.
  - apply _normalize_angle_fixed.
Qed.

(** X3: normalising moves an angle by a whole number of turns, so it
    keeps the direction: cosine and sine are unchanged. *)
Theorem _normalize_angle_same_direction (angle : R) :
  (exists k : Z, _normalize_angle angle = angle + IZR k * (2 * PI))
  /\ cos (_normalize_angle angle) = cos angle
  /\ sin (_normalize_angle angle) = sin angle.
Proof.
  destruct (_normalize_angle_shift angle) as [k Hk].
  split; [ exists k; exact Hk | ].
  rewrite Hk. apply direction_full_turns.
Qed.

Lemma _normalize_angle_turns (angle : R) (k : Z) :
  _normalize_angle (angle + IZR k * (2 * PI)) = _normalize_angle angle.
Proof.
  unfold _normalize_angle.
  rewrite mod_periodic by apply two_PI_pos. reflexivity.
Qed.

(** X4: two angles are normalised to the same value exactly when they
    differ by a whole number of turns; in particular
    [_normalize_angle] has period 2 pi. *)
Theorem _normalize_angle_eq_iff (a b : R) :
  _normalize_angle a = _normalize_angle b
  <-> exists k : Z, a = b + IZR k * (2 * PI).
Proof.
  split.
  - intros H.
    destruct (_normalize_angle_shift a) as [ka Ha].
    destruct (_normalize_angle_shift b) as [kb Hb].
    exists (kb - ka)%Z. rewrite minus_IZR. lra.
  - intros [k ->]. apply _normalize_angle_turns.
Qed.

(** ** More on the relative-coordinate transform *)

(** X5: [_state_to_relative] returns exactly on 6-vectors, and then a
    4-vector; on any other input it raises [ValueError]. *)
Theorem _state_to_relative_shape {Action : Type} (self : CircleEnv Action)
    (state : list R) :
  (length state = 6%nat ->
   exists obs, _state_to_relative self state = Ok obs /\ length obs = 4%nat)
  /\ (length state <> 6%nat ->
      _state_to_relative self state = Raise ValueError).
Proof.
  split.
  - intros H.
    destruct (unpack6_length state H) as (x & y & yaw & xd & yd & yawd & ->).
    eexists. split; reflexivity.
  - intros H. unfold _state_to_relative.
    do 6 (destruct state as [ | ? state ]; [ reflexivity | ]).
    destruct state; [ exfalso; apply H; reflexivity | reflexivity ].
Qed.

Lemma _state_to_relative_shape_witness :
  length state_outside = 6%nat
  /\ (exists obs,
        _state_to_relative env_on_circle state_outside = Ok obs
        /\ length obs = 4%nat)
  /\ length [1; 2; 3] <> 6%nat
  /\ _state_to_relative env_on_circle [1; 2; 3] = Raise ValueError.
Proof.
  assert (H6 : length state_outside = 6%nat) by reflexivity.
  assert (H3 : length [1; 2; 3] <> 6%nat) by discriminate.
  split; [ exact H6 | split ].
  - apply (proj1 (_state_to_relative_shape env_on_circle state_outside) H6).
  - split; [ exact H3 | ].
    apply (proj2 (_state_to_relative_shape env_on_circle [1; 2; 3]) H3).
Defined.

(** The heading error is the angle from the heading to the tangent. *)
Lemma heading_error_direction (x y yaw : R) :
  (x, y) <> (0, 0) ->
  let theta := _normalize_angle (np.arctan2 (- x) y + PI - yaw) in
  cos theta = (x * sin yaw - y * cos yaw) / sqrt (x² + y²)
  /\ sin theta = (x * cos yaw + y * sin yaw) / sqrt (x² + y²).
Proof.
  intros Hxy theta.
  assert (Hn : sqrt (x² + y²) <> 0).
  { pose proof (sqrt_lt_R0 _ (norm_pos x y Hxy)). lra. }
  destruct (arctan2_direction (- x) y) as [Hc Hs].
  { intros E. injection E as E1 E2. apply Hxy. f_equal; lra. }
  rewrite <- Rsqr_neg in Hc, Hs.
  destruct (_normalize_angle_shift (np.arctan2 (- x) y + PI - yaw))
    as [k Hk].
  destruct (direction_full_turns (np.arctan2 (- x) y + PI - yaw) k)
    as [Hcos Hsin].
  unfold theta. rewrite Hk, Hcos, Hsin.
  replace (np.arctan2 (- x) y + PI - yaw)
    with (np.arctan2 (- x) y - yaw + PI) by ring.
  rewrite neg_cos, neg_sin, cos_minus, sin_minus, Hc, Hs.
  split; field; exact Hn.
Qed.

(** X6: away from the origin, the heading error theta returned by
    [_state_to_relative] is the angle between the heading
    (cos yaw, sin yaw) and the counterclockwise tangent (-y, x)/r of the
    circle through the car: cos theta is their scalar product, and
    sin theta is the scalar product of the heading with the outward
    radial direction (x, y)/r. *)
Theorem _state_to_relative_heading_error {Action : Type}
    (self : CircleEnv Action) (x y yaw x_dot y_dot yaw_dot : R) :
  (x, y) <> (0, 0) ->
  exists dx theta ddx dtheta,
    _state_to_relative self [x; y; yaw; x_dot; y_dot; yaw_dot]
    = Ok [dx; theta; ddx; dtheta]
    /\ cos theta = (- y * cos yaw + x * sin yaw) / sqrt (x² + y²)
    /\ sin theta = (x * cos yaw + y * sin yaw) / sqrt (x² + y²).
Proof.
  intros Hxy.
  destruct (heading_error_direction x y yaw Hxy) as [Hc Hs].
  do 4 eexists. split; [ reflexivity | ].
  split.
  - rewrite Hc. f_equal. ring.
  - exact Hs.
Qed.

Lemma _state_to_relative_heading_error_witness :
  (1, 0) <> (0, 0)
  /\ exists dx theta ddx dtheta,
       _state_to_relative env_on_circle state_tangent
       = Ok [dx; theta; ddx; dtheta]
       /\ cos theta
          = (- 0 * cos (PI / 2) + 1 * sin (PI / 2)) / sqrt (1² + 0²)
       /\ sin theta
          = (1 * cos (PI / 2) + 0 * sin (PI / 2)) / sqrt (1² + 0²).
Proof.
  assert (H : (1, 0) <> (0, 0)) by (intros E; injection E; lra).
  split; [ exact H | ].
  apply (_state_to_relative_heading_error env_on_circle
           1 0 (PI / 2) 0 1 0 H).
Defined.

Lemma cauchy_schwarz_plane (x y u v : R) :
  Rabs (x * u + y * v) <= sqrt (x² + y²) * sqrt (u² + v²).
Proof.
  rewrite <- sqrt_mult.
  - rewrite <- sqrt_Rsqr_abs.
    apply sqrt_le_1_alt. unfold Rsqr.
    pose proof (Rle_0_sqr (x * v - y * u)) as H. unfold Rsqr in H. nra.
  - pose proof (Rle_0_sqr x). pose proof (Rle_0_sqr y). lra.
  - pose proof (Rle_0_sqr u). pose proof (Rle_0_sqr v). lra.
Qed.

(** X7: away from the origin, the radial velocity ddx returned by
    [_state_to_relative] never exceeds the speed of the car in absolute
    value: |ddx| <= sqrt(x_dot² + y_dot²). *)
Theorem _state_to_relative_radial_speed {Action : Type}
    (self : CircleEnv Action) (x y yaw x_dot y_dot yaw_dot : R) :
  (x, y) <> (0, 0) ->
  exists dx theta ddx dtheta,
    _state_to_relative self [x; y; yaw; x_dot; y_dot; yaw_dot]
    = Ok [dx; theta; ddx; dtheta]
    /\ Rabs ddx <= sqrt (x_dot² + y_dot²).
Proof.
  intros Hxy.
  assert (Hn : 0 < sqrt (x² + y²)).
  { apply sqrt_lt_R0, norm_pos. exact Hxy. }
  rewrite _state_to_relative_closed_form by exact Hxy.
  do 4 eexists. split; [ reflexivity | ].
  unfold Rdiv. rewrite Rabs_mult, (Rabs_pos_eq (/ _)).
  - apply (Rmult_le_reg_r (sqrt (x² + y²))); [ exact Hn | ].
    rewrite Rmult_assoc, Rinv_l, Rmult_1_r by lra.
    rewrite (Rmult_comm (sqrt (x_dot² + y_dot²))).
    apply cauchy_schwarz_plane.
  - left. apply Rinv_0_lt_compat. exact Hn.
Qed.

Lemma _state_to_relative_radial_speed_witness :
  (1, 0) <> (0, 0)
  /\ exists dx theta ddx dtheta,
       _state_to_relative env_on_circle state_tangent
       = Ok [dx; theta; ddx; dtheta]
       /\ Rabs ddx <= sqrt (0² + 1²).
Proof.
  assert (H : (1, 0) <> (0, 0)) by (intros E; injection E; lra).
  split; [ exact H | ].
  apply (_state_to_relative_radial_speed env_on_circle
           1 0 (PI / 2) 0 1 0 H).
Defined.

(** X8: the observation does not see whole turns of the heading:
    replacing yaw by yaw + 2 k pi leaves the result of
    [_state_to_relative] unchanged. *)
Theorem _state_to_relative_yaw_turns {Action : Type}
    (self : CircleEnv Action) (x y yaw x_dot y_dot yaw_dot : R) (k : Z) :
  _state_to_relative self
    [x; y; yaw + IZR k * (2 * PI); x_dot; y_dot; yaw_dot]
  = _state_to_relative self [x; y; yaw; x_dot; y_dot; yaw_dot].
Proof.
  unfold _state_to_relative. cbn [unpack6 bind].
  replace (np.arctan2 (- x) y + PI - (yaw + IZR k * (2 * PI)))
    with (np.arctan2 (- x) y + PI - yaw + IZR (- k) * (2 * PI))
    by (rewrite opp_IZR; ring).
  rewrite _normalize_angle_turns. reflexivity.
Qed.

(** X17: the radial error dx returned by [_state_to_relative] is never
    below minus the radius, and it equals minus the radius only for a
    car at the centre of the circle. *)
Theorem _state_to_relative_radial_error {Action : Type}
    (self : CircleEnv Action) (x y yaw x_dot y_dot yaw_dot : R) :
  exists dx theta ddx dtheta,
    _state_to_relative self [x; y; yaw; x_dot; y_dot; yaw_dot]
    = Ok [dx; theta; ddx; dtheta]
    /\ - radius self <= dx
    /\ (dx = - radius self <-> (x, y) = (0, 0)).
Proof.
  do 4 eexists. split; [ reflexivity | ].
  unfold np.square. fold (Rsqr x) (Rsqr y).
  pose proof (sqrt_pos (x² + y²)) as Hpos.
  split; [ lra | split ].
  - intros H.
    assert (H0 : sqrt (x² + y²) = 0) by lra.
    destruct (Req_dec_T x 0) as [Hx | Hx];
      [ destruct (Req_dec_T y 0) as [Hy | Hy]; [ congruence | ] | ].
    + assert (Hxy : (x, y) <> (0, 0)) by (intros E; injection E; auto).
      pose proof (sqrt_lt_R0 _ (norm_pos x y Hxy)). lra.
    + assert (Hxy : (x, y) <> (0, 0)) by (intros E; injection E; auto).
      pose proof (sqrt_lt_R0 _ (norm_pos x y Hxy)). lra.
  - intros E. injection E as -> ->.
    replace (0² + 0²) with 0 by (unfold Rsqr; ring).
    rewrite sqrt_0. ring.
Qed.

(** ** More on [step] *)

Section MoreStepProperties.

Variable Action : Type.
Variable state_transition : list R -> Action -> R -> list R.
Variable _check_collision : list R -> bool.

Lemma unpack6_malformed (state : list R) :
  length state <> 6%nat -> unpack6 state = Raise ValueError.
Proof.
  intros H.
  do 6 (destruct state as [ | ? state ]; [ reflexivity | ]).
  destruct state; [ exfalso; apply H; reflexivity | reflexivity ].
Qed.

Lemma step_malformed (self : CircleEnv Action) (action : Action) :
  length (state_transition (_state self) action (_dt self)) <> 6%nat ->
  snd (step state_transition _check_collision self action)
  = Raise ValueError.
Proof.
  intros H. unfold step, step_return, _state_to_relative.
  cbn [set_action _state _dt].
  rewrite (unpack6_malformed _ H).
  destruct (_check_collision _); reflexivity.
Qed.

Lemma step_well_formed (self : CircleEnv Action) (action : Action) :
  length (state_transition (_state self) action (_dt self)) = 6%nat ->
  exists res,
    snd (step state_transition _check_collision self action) = Ok res.
Proof.
  intros H.
  destruct (unpack6_length _ H) as (x & y & yaw & xd & yd & yawd & Hn).
  unfold step. cbn [set_action _state _dt]. rewrite Hn.
  destruct (_check_collision _); eexists; reflexivity.
Qed.

(** X9: [step] returns exactly when the dynamics model answers with a
    6-vector; on any other answer it raises [ValueError], with or
    without a collision. *)
Theorem step_returns_iff_six (self : CircleEnv Action) (action : Action) :
  let nextstate := state_transition (_state self) action (_dt self) in
  let out := step state_transition _check_collision self action in
  ((exists res, snd out = Ok res) <-> length nextstate = 6%nat)
  /\ (snd out = Raise ValueError <-> length nextstate <> 6%nat).
Proof.
  intros nextstate out.
  destruct (Nat.eq_dec (length nextstate) 6) as [H6 | H6].
  - destruct (step_well_formed self action H6) as [res Hres].
    fold out in Hres.
    split; split; intros H; try assumption.
    + exists res. exact Hres.
    + rewrite Hres in H. discriminate H.
    + contradiction.
  - pose proof (step_malformed self action H6) as Hraise.
    fold out in Hraise.
    split; split; intros H; try assumption.
    + destruct H as [res Hres]. rewrite Hraise in Hres. discriminate Hres.
    + contradiction.
Qed.

(** X10: [step] records the action in [self._action] and leaves the
    radius, the target velocity and the time step untouched, whether
    it returns or raises. *)
Theorem step_frame (self : CircleEnv Action) (action : Action) :
  let self' := fst (step state_transition _check_collision self action) in
  _action self' = Some action
  /\ radius self' = radius self
  /\ target_velocity self' = target_velocity self
  /\ _dt self' = _dt self.
Proof.
  unfold step, step_return. cbn [set_action _state _dt].
  destruct (_check_collision _).
  - destruct (_state_to_relative _ _); cbn; auto.
  - destruct (unpack6 _) as [ [[[[[x y] yaw] xd] yd] yawd] | e ];
      [ | cbn; auto ].
    destruct (_state_to_relative _ _); cbn; auto.
Qed.

End MoreStepProperties.

Section RewardProperties.

Variable Action : Type.
Variable state_transition : list R -> Action -> R -> list R.
Variable _check_collision : list R -> bool.


(** X12: in a step without collision the first component of the
    observation is minus the diagnostic dist, the reward is
    -|dist| - 0.25 vel², and the reward is 0 exactly when the committed
    state lies on the circle (sqrt(x² + y²) = radius) and moves at the
    target velocity (sqrt(x_dot² + y_dot²) = target_velocity). *)
Theorem step_reward_zero_iff (self : CircleEnv Action) (action : Action)
    (x y yaw x_dot y_dot yaw_dot : R) :
  state_transition (_state self) action (_dt self)
  = [x; y; yaw; x_dot; y_dot; yaw_dot] ->
  _check_collision [x; y; yaw; x_dot; y_dot; yaw_dot] = false ->
  exists res d v,
    snd (step state_transition _check_collision self action) = Ok res
    /\ dist res = np.Fin d /\ vel res = np.Fin v
    /\ nth 0 (observation res) 0 = - d
    /\ reward res = np.Fin (- Rabs d - 0.25 * v²)
    /\ (reward res = np.Fin 0 <->
        sqrt (x² + y²) = radius self
        /\ sqrt (x_dot² + y_dot²) = target_velocity self).
Proof.
  intros Hnext Hc.
  unfold step, step_return, _state_to_relative.
  cbn [set_action set_state _state _dt radius target_velocity].
  rewrite Hnext, Hc. cbn [unpack6 bind snd].
  do 3 eexists. split; [ reflexivity | ].
  cbn [dist vel reward observation nth].
  split; [ reflexivity | split; [ reflexivity | ] ].
  unfold np.square. fold (Rsqr x) (Rsqr y) (Rsqr x_dot) (Rsqr y_dot).
  set (n := sqrt (x² + y²)). set (s := sqrt (x_dot² + y_dot²)).
  split; [ ring | split; [ reflexivity | ] ].
  split.
  - intros H. injection H as H.
    pose proof (Rabs_pos (radius self - n)) as Ha.
    pose proof (Rle_0_sqr (s - target_velocity self)) as Hsq.
    unfold Rsqr in Hsq.
    assert (Ha0 : Rabs (radius self - n) = 0) by lra.
    assert (Hs0 : (s - target_velocity self)
                  * (s - target_velocity self) = 0) by lra.
    split.
    + destruct (Req_dec_T (radius self - n) 0) as [E | E]; [ lra | ].
      pose proof (Rabs_pos_lt _ E). lra.
    + apply Rmult_integral in Hs0. lra.
  - intros [Hn Hs]. rewrite Hn, Hs. f_equal.
    replace (radius self - radius self) with 0 by ring.
    rewrite Rabs_R0. ring.
Qed.

(** X13: a rejected step can be repeated: when the collision check
    fires, stepping again with the same action from the environment
    left by the first call gives exactly the outcome of the first
    call, environment and result. *)
Theorem step_collision_repeatable (self : CircleEnv Action)
    (action : Action) :
  _check_collision (state_transition (_state self) action (_dt self))
  = true ->
  step state_transition _check_collision
    (fst (step state_transition _check_collision self action)) action
  = step state_transition _check_collision self action.
Proof.
  intros Hc.
  assert (Hfst : fst (step state_transition _check_collision self action)
                 = set_action Action self (Some action)).
  { unfold step, step_return. cbn [set_action _state _dt]. rewrite Hc.
    destruct (_state_to_relative _ _); reflexivity. }
  rewrite Hfst. reflexivity.
Qed.

(** X14: 6-vectors are kept: when the state is a 6-vector and the
    dynamics model maps 6-vectors to 6-vectors, [step] returns and the
    state after the call is again a 6-vector. *)
Theorem step_keeps_six (self : CircleEnv Action) (action : Action) :
  (forall s a dt, length s = 6%nat ->
                  length (state_transition s a dt) = 6%nat) ->
  length (_state self) = 6%nat ->
  let out := step state_transition _check_collision self action in
  (exists res, snd out = Ok res) /\ length (_state (fst out)) = 6%nat.
Proof.
  intros Hmodel Hstate out.
  pose proof (Hmodel (_state self) action (_dt self) Hstate) as Hnext.
  destruct (unpack6_length _ Hnext) as (x & y & yaw & xd & yd & yawd & Hn).
  unfold out, step. cbn [set_action _state _dt]. rewrite Hn.
  destruct (_check_collision _); cbn.
  - split; [ eexists; reflexivity | exact Hstate ].
  - split; [ eexists; reflexivity | reflexivity ].
Qed.

End RewardProperties.


Lemma step_reward_zero_iff_witness :
  const_model state_tangent (_state env_on_circle) tt (_dt env_on_circle)
  = [1; 0; PI / 2; 0; 1; 0]
  /\ const_collision false [1; 0; PI / 2; 0; 1; 0] = false
  /\ exists res d v,
       snd (step (const_model state_tangent) (const_collision false)
              env_on_circle tt) = Ok res
       /\ dist res = np.Fin d /\ vel res = np.Fin v
       /\ nth 0 (observation res) 0 = - d
       /\ reward res = np.Fin (- Rabs d - 0.25 * v²)
       /\ (reward res = np.Fin 0 <->
           sqrt (1² + 0²) = radius env_on_circle
           /\ sqrt (0² + 1²) = target_velocity env_on_circle).
Proof.
  split; [ reflexivity | split; [ reflexivity | ] ].
  apply (step_reward_zero_iff unit (const_model state_tangent)
           (const_collision false) env_on_circle tt
           1 0 (PI / 2) 0 1 0 eq_refl eq_refl).
Defined.

Lemma step_collision_repeatable_witness :
  const_collision true
    (const_model state_outside (_state env_on_circle) tt
       (_dt env_on_circle)) = true
  /\ step (const_model state_outside) (const_collision true)
       (fst (step (const_model state_outside) (const_collision true)
               env_on_circle tt)) tt
     = step (const_model state_outside) (const_collision true)
         env_on_circle tt.
Proof.
  split; [ reflexivity | ].
  apply (step_collision_repeatable unit (const_model state_outside)
           (const_collision true) env_on_circle tt).
  reflexivity.
Defined.

Lemma shift_model_keeps_six (s : list R) (a : unit) (dt : R) :
  length s = 6%nat -> length (shift_model s a dt) = 6%nat.
Proof. destruct s; intros H; [ discriminate H | exact H ]. Qed.

Lemma step_keeps_six_witness :
  (forall s a dt, length s = 6%nat -> length (shift_model s a dt) = 6%nat)
  /\ length (_state env_on_circle) = 6%nat
  /\ (exists res,
        snd (step shift_model (const_collision false) env_on_circle tt)
        = Ok res)
  /\ length (_state (fst (step shift_model (const_collision false)
                            env_on_circle tt))) = 6%nat.
Proof.
  split; [ exact shift_model_keeps_six | ].
  split; [ reflexivity | ].
  apply (step_keeps_six unit shift_model (const_collision false)
           env_on_circle tt shift_model_keeps_six eq_refl).
Defined.

(** ** Resetting *)

Lemma sqrt_on_axis (x : R) : x < 0 -> sqrt (x² + 0²) = - x.
Proof.
  intros Hx.
  replace (x² + 0²) with (x²) by (unfold Rsqr; ring).
  rewrite sqrt_Rsqr_abs. apply Rabs_left. exact Hx.
Qed.

(** X15: [reset] never raises.  It clears the recorded action, stores
    the freshly sampled 6-vector as the state, consumes exactly five
    draws, resets the renderer when one is attached, leaves radius,
    target velocity and time step alone, and returns the 4-vector that
    [_state_to_relative] gives for the sampled state. *)
Theorem reset_effects {Action Renderer : Type}
    (renderer_reset : Renderer -> Renderer) (self : CircleEnv Action)
    (g : np.RandomState) (_renderer : option Renderer) :
  exists state obs,
    fst (get_initial_state self g) = Ok state
    /\ length state = 6%nat
    /\ _state_to_relative self state = Ok obs
    /\ length obs = 4%nat
    /\ reset renderer_reset self g _renderer
       = (mkCircleEnv (radius self) (target_velocity self) (_dt self)
            state None,
          fun n => g (5 + n)%nat,
          option_map renderer_reset _renderer,
          Ok obs).
Proof.
  unfold reset. rewrite !get_initial_state_eq.
  cbn [fst set_action set_state radius target_velocity _dt _state _action].
  do 2 eexists. split; [ reflexivity | ].
  split; [ reflexivity | ].
  unfold _state_to_relative. cbn [unpack6 bind radius].
  split; [ reflexivity | ].
  split; [ reflexivity | ].
  destruct _renderer; reflexivity.
Qed.

(** X16: when the radius exceeds 0.25 and the draws lie in [0, 1), the
    observation returned by [reset] shows a car close to the circle
    and close to its tangent: -0.25 < dx <= 0.25, the heading error
    theta is within 30 degrees (-pi/6 < theta <= pi/6), and the radial
    velocity satisfies |ddx| <= 0.75 |target_velocity|. *)
Theorem reset_near_circle {Action Renderer : Type}
    (renderer_reset : Renderer -> Renderer) (self : CircleEnv Action)
    (g : np.RandomState) (_renderer : option Renderer) :
  np.uniform01 g ->
  0.25 < radius self ->
  exists dx theta ddx dtheta,
    snd (reset renderer_reset self g _renderer)
    = Ok [dx; theta; ddx; dtheta]
    /\ -0.25 < dx <= 0.25
    /\ - (PI / 6) < theta <= PI / 6
    /\ Rabs ddx <= 0.75 * Rabs (target_velocity self).
Proof.
  intros Hg Hr.
  pose proof (Hg 0%nat) as H0. pose proof (Hg 1%nat) as H1.
  pose proof (Hg 2%nat) as H2.
  pose proof PI_RGT_0 as Hpi.
  unfold reset. rewrite get_initial_state_eq.
  unfold set_state, set_action.
  cbn [radius target_velocity _dt _state _action].
  set (r := radius self) in *. set (tv := target_velocity self).
  set (x := 0.5 * g 0%nat - 0.5 / 2 - r).
  set (yaw := np.deg2rad 60 * g 1%nat - np.deg2rad 60 / 2 + np.deg2rad 270).
  set (x_dot := 1.5 * tv * g 2%nat - 1.5 * tv / 2).
  assert (Hx : x < 0) by (unfold x; lra).
  assert (Hxy : (x, 0) <> (0, 0)) by (intros E; injection E; lra).
  rewrite _state_to_relative_closed_form by exact Hxy.
  cbn [snd radius].
  do 4 eexists. split; [ reflexivity | ].
  rewrite (sqrt_on_axis x Hx).
  split; [ unfold x; lra | split ].
  - (* the heading error *)
    assert (Hat : np.arctan2 (- x) 0 = PI / 2).
    { unfold np.arctan2.
      destruct (Rlt_dec 0 0) as [H | _]; [ lra | ].
      destruct (Rlt_dec 0 (- x)) as [_ | H]; [ reflexivity | lra ]. }
    rewrite Hat.
    assert (Hin : - (PI / 6) < PI / 2 + PI - yaw <= PI / 6).
    { assert (Hu : 0 <= PI * g 1%nat < PI) by nra.
      unfold yaw, np.deg2rad. lra. }
    rewrite _normalize_angle_fixed by lra. exact Hin.
  - (* the radial velocity *)
    replace ((x * x_dot + 0 * (- (1.5 * tv) * g 3%nat)) / - x)
      with (- x_dot) by (field; lra).
    rewrite Rabs_Ropp. unfold x_dot.
    unfold Rabs at 2. destruct (Rcase_abs tv); apply Rabs_le; nra.
Qed.

Lemma reset_near_circle_witness :
  np.uniform01 (const_rng 0.5)
  /\ 0.25 < radius env_on_circle
  /\ exists dx theta ddx dtheta,
       snd (reset counting_renderer_reset env_on_circle (const_rng 0.5)
              (Some 0%nat))
       = Ok [dx; theta; ddx; dtheta]
       /\ -0.25 < dx <= 0.25
       /\ - (PI / 6) < theta <= PI / 6
       /\ Rabs ddx <= 0.75 * Rabs (target_velocity env_on_circle).
Proof.
  assert (Hg : np.uniform01 (const_rng 0.5))
    by (apply const_rng_uniform01; lra).
  assert (Hr : 0.25 < radius env_on_circle) by (cbn; lra).
  split; [ exact Hg | split; [ exact Hr | ] ].
  apply (reset_near_circle counting_renderer_reset env_on_circle
           (const_rng 0.5) (Some 0%nat) Hg Hr).
Defined.
